(** * Post routes of the dev-connector backend (routes/api/posts.js)

    A shallow embedding of the nine Express handlers of [routes/api/posts.js].
    Each handler is a computation in a small state-and-exception monad [M]:
    - the state is the document collection of posts (the Mongo store as the
      handlers see it through [Post.findById], [Post.find], [save] and
      [remove]), the flag [headersSent] of the Express response object, and
      the trace of observable effects (responses written, documents saved or
      removed);
    - the exceptions are what the awaited calls reject with: Mongoose's
      [CastError] (with its [kind], ["ObjectId"] for a malformed id), the
      Node error raised when a response is written twice
      ([ERR_HTTP_HEADERS_SENT]), a schema validation failure of [save], and
      the [TypeError] of reading a field of [null].
    Authentication (the [auth] middleware) is upstream: a request carries the
    caller's id [req.user.id]. The store and the clock assign fresh ids and
    timestamps; a request carries the values they hand out. *)

From Stdlib Require Import String List Bool Arith ZArith Lia
  Sorting.Permutation Sorting.Sorted.
Import ListNotations.
Open Scope string_scope.
Open Scope nat_scope.
Open Scope list_scope.

(** ** Data model (models/Post.js, models/User.js as the handlers use them) *)

Record like := mkLike {
  like_id : string;     (** subdocument [_id] *)
  like_user : string    (** [like.user] *)
}.

Record comment := mkComment {
  comment_id : string;  (** [comment.id] *)
  c_text : string;
  c_name : string;
  c_avatar : string;
  c_user : string;
  c_date : nat
}.

Record post := mkPost {
  post_id : string;     (** [post._id] *)
  text : string;
  name : string;
  avatar : string;
  post_user : string;   (** [post.user] *)
  likes : list like;
  comments : list comment;
  date : nat
}.

Record user := mkUser {
  user_id : string;
  user_name : string;
  user_avatar : string
}.

(** An element of a comment array built in memory by a handler: a comment,
    or the value of [res.status(401).json(...)] (the Express response object)
    when a [map] callback returns it. *)
Inductive citem :=
| CDoc (c : comment)
| CRes.

Definition set_text (p : post) (t : string) : post :=
  mkPost (post_id p) t (name p) (avatar p) (post_user p) (likes p)
    (comments p) (date p).

Definition set_likes (p : post) (ls : list like) : post :=
  mkPost (post_id p) (text p) (name p) (avatar p) (post_user p) ls
    (comments p) (date p).

Definition set_comments (p : post) (cs : list comment) : post :=
  mkPost (post_id p) (text p) (name p) (avatar p) (post_user p) (likes p)
    cs (date p).

Definition set_c_text (c : comment) (t : string) : comment :=
  mkComment (comment_id c) t (c_name c) (c_avatar c) (c_user c) (c_date c).

(** ** Requests and responses *)

Record request := mkReq {
  req_user : string;        (** [req.user.id], set by the [auth] middleware *)
  req_post_id : string;     (** [req.params.post_id] *)
  req_comment_id : string;  (** [req.params.comment_id] *)
  req_text : string;        (** [req.body.text]; a missing field reads as "" *)
  req_fresh : string;       (** the [_id] the store assigns to a new subdocument or post *)
  req_now : nat             (** [Date.now] for the [date] defaults *)
}.

Inductive body :=
| BMsg (msg : string)                     (** [{ msg }] *)
| BErrors (msgs : list string)            (** [{ errors: errors.array() }] *)
| BText (s : string)                      (** [res.send(s)] *)
| BPost (p : post)
| BPosts (ps : list post)
| BMsgPost (msg : string) (p : post)      (** [{ msg, post }] *)
| BLikes (ls : list like)
| BComments (cs : list comment).

Record response := mkResp { status : nat; rbody : body }.

Inductive event :=
| EvSend (r : response)
| EvSave (p : post)
| EvRemove (id : string).

(** ** The handler monad *)

Inductive exn :=
| CastError (kind : string)
| HeadersSent
| ValidationError
| TypeError.

(** [err.kind] *)
Definition err_kind (e : exn) : option string :=
  match e with CastError k => Some k | _ => None end.

Inductive outcome (A : Type) :=
| Ok (a : A)
| Throw (e : exn).
Arguments Ok {A} a.
Arguments Throw {A} e.

Record world := mkWorld {
  store : list post;
  headersSent : bool;
  trace : list event
}.

Definition M (A : Type) : Type := world -> outcome A * world.

Definition ret {A} (a : A) : M A := fun w => (Ok a, w).
Definition throw {A} (e : exn) : M A := fun w => (Throw e, w).
Definition bind {A B} (m : M A) (k : A -> M B) : M B :=
  fun w => match m w with
           | (Ok a, w') => k a w'
           | (Throw e, w') => (Throw e, w')
           end.
(** [try { m } catch (err) { h(err) }] *)
Definition catch {A} (m : M A) (h : exn -> M A) : M A :=
  fun w => match m w with
           | (Ok a, w') => (Ok a, w')
           | (Throw e, w') => h e w'
           end.

Notation "x <- m ;; k" := (bind m (fun x => k))
  (at level 61, m at next level, right associativity).
Notation "m ;;; k" := (bind m (fun _ => k))
  (at level 61, right associativity).

(** ** Primitives of the collaborators *)

(** [res.status(s).json(b)] / [res.status(s).send(b)]: writing a second
    response throws, because the headers are already sent. *)
Definition send (s : nat) (b : body) : M unit :=
  fun w => if headersSent w then (Throw HeadersSent, w)
           else (Ok tt, mkWorld (store w) true
                                 (trace w ++ [EvSend (mkResp s b)])).

(** A syntactically valid ObjectId: 24 hexadecimal digits, or any 12-byte
    string (what Mongoose's ObjectId cast accepts). *)
Definition is_hex (a : Ascii.ascii) : bool :=
  let n := Ascii.nat_of_ascii a in
  (48 <=? n) && (n <=? 57) || (97 <=? n) && (n <=? 102)
  || (65 <=? n) && (n <=? 70).

Definition valid_oid (s : string) : bool :=
  (String.length s =? 24) && forallb is_hex (list_ascii_of_string s)
  || (String.length s =? 12).

Fixpoint find_by_id (st : list post) (id : string) : option post :=
  match st with
  | [] => None
  | p :: st' => if String.eqb (post_id p) id then Some p else find_by_id st' id
  end.

(** [Post.findById(id)] *)
Definition find_post (id : string) : M (option post) :=
  fun w => if valid_oid id then (Ok (find_by_id (store w) id), w)
           else (Throw (CastError "ObjectId"), w).

(** [Post.find({}).sort({ date: -1 })]: all documents, newest first. *)
Fixpoint insert_desc (p : post) (l : list post) : list post :=
  match l with
  | [] => [p]
  | q :: l' => if date q <? date p then p :: l else q :: insert_desc p l'
  end.

Fixpoint sort_date_desc (l : list post) : list post :=
  match l with
  | [] => []
  | p :: l' => insert_desc p (sort_date_desc l')
  end.

Definition find_all_sorted : M (list post) :=
  fun w => (Ok (sort_date_desc (store w)), w).

(** [User.findById(id)] over the user directory. *)
Fixpoint find_user (dir : list user) (id : string) : option user :=
  match dir with
  | [] => None
  | u :: dir' => if String.eqb (user_id u) id then Some u else find_user dir' id
  end.

(** Reading [user.name] of [null] throws a [TypeError]. *)
Definition deref {A} (o : option A) : M A :=
  match o with Some a => ret a | None => throw TypeError end.

(** The document collection after [doc.save()]: the stored document with the
    same [_id] is replaced, a new one is inserted. *)
Definition store_put (p : post) (st : list post) : list post :=
  if existsb (fun q => String.eqb (post_id q) (post_id p)) st
  then map (fun q => if String.eqb (post_id q) (post_id p) then p else q) st
  else st ++ [p].

Definition store_remove (id : string) (st : list post) : list post :=
  filter (fun q => negb (String.eqb (post_id q) id)) st.

Definition write (p : post) : M unit :=
  fun w => (Ok tt, mkWorld (store_put p (store w)) (headersSent w)
                           (trace w ++ [EvSave p])).

(** [post.remove()] *)
Definition remove (p : post) : M unit :=
  fun w => (Ok tt, mkWorld (store_remove (post_id p) (store w)) (headersSent w)
                           (trace w ++ [EvRemove (post_id p)])).

Section Handlers.

(** What the Post schema makes of an Express response object assigned into
    the [comments] array: either a comment subdocument, or a validation
    failure at [save]. The Post model is not part of the routes, so the
    handlers are verified for either behaviour. *)
Variable cast_response : option comment.

Definition cast_item (i : citem) : option comment :=
  match i with CDoc c => Some c | CRes => cast_response end.

Fixpoint cast_items (is : list citem) : option (list comment) :=
  match is with
  | [] => Some []
  | i :: is' =>
      match cast_item i, cast_items is' with
      | Some c, Some cs => Some (c :: cs)
      | _, _ => None
      end
  end.

(** [post.comments = items; await post.save()]: Mongoose casts the array
    into comment subdocuments and validates before writing. *)
Definition save_items (p : post) (items : list citem) : M post :=
  match cast_items items with
  | Some cs => write (set_comments p cs) ;;; ret (set_comments p cs)
  | None => throw ValidationError
  end.

(** [await post.save()] of a post whose comments are all documents. *)
Definition save (p : post) : M unit := write p.

(** ** JavaScript list operations *)

(** [arr.indexOf(x)] *)
Fixpoint index_of (x : string) (l : list string) : Z :=
  match l with
  | [] => (-1)%Z
  | y :: l' =>
      if String.eqb y x then 0%Z
      else let i := index_of x l' in if (i <? 0)%Z then (-1)%Z else (i + 1)%Z
  end.

(** [arr.splice(start, 1)]: a negative [start] counts from the end. *)
Definition splice1 {A} (l : list A) (start : Z) : list A :=
  let len := Z.of_nat (length l) in
  let s := if (start <? 0)%Z then Z.max (len + start) 0 else Z.min start len in
  firstn (Z.to_nat s) l ++ skipn (Z.to_nat s + 1) l.

(** [arr.map(f)] with an effectful callback. *)
Fixpoint mapM {A B} (f : A -> M B) (l : list A) : M (list B) :=
  match l with
  | [] => ret []
  | x :: l' => y <- f x ;; ys <- mapM f l' ;; ret (y :: ys)
  end.

(** [arr.filter(f)] with an effectful callback; [f] yields the truthiness of
    the value the JavaScript callback returns. *)
Fixpoint filterM {A} (f : A -> M bool) (l : list A) : M (list A) :=
  match l with
  | [] => ret []
  | x :: l' => b <- f x ;; ys <- filterM f l' ;; ret (if b then x :: ys else ys)
  end.

(** ** The handlers *)

(** [check('text', 'Text is required').not().isEmpty()] *)
Definition text_ok (q : request) : bool := negb (String.eqb (req_text q) "").

Definition text_required : M unit := send 400 (BErrors ["Text is required"]).
Definition server_error : M unit := send 500 (BText "Server Error").
Definition post_not_found : M unit := send 404 (BMsg "Post not found").
Definition not_authorized : M unit := send 401 (BMsg "User not authorized").

(** The [catch] block of the id-bearing handlers. *)
Definition on_lookup_error (e : exn) : M unit :=
  match err_kind e with
  | Some k => if String.eqb k "ObjectId" then post_not_found else server_error
  | None => server_error
  end.

(** POST api/posts *)
Definition create_post (dir : list user) (q : request) : M unit :=
  if negb (text_ok q) then text_required else
  catch (u <- deref (find_user dir (req_user q)) ;;
         let p := mkPost (req_fresh q) (req_text q) (user_name u)
                    (user_avatar u) (req_user q) [] [] (req_now q) in
         save p ;;; send 200 (BPost p))
        (fun _ => server_error).

(** GET api/posts *)
Definition get_posts : M unit :=
  catch (ps <- find_all_sorted ;; send 200 (BPosts ps))
        (fun _ => server_error).

(** GET api/posts/:post_id *)
Definition get_post (q : request) : M unit :=
  catch (o <- find_post (req_post_id q) ;;
         match o with
         | None => post_not_found
         | Some p => send 200 (BPost p)
         end)
        on_lookup_error.

(** DELETE api/posts/:post_id *)
Definition delete_post (q : request) : M unit :=
  catch (o <- find_post (req_post_id q) ;;
         match o with
         | None => post_not_found
         | Some p =>
             if negb (String.eqb (post_user p) (req_user q)) then not_authorized
             else remove p ;;; send 200 (BMsgPost "Post removed" p)
         end)
        on_lookup_error.

(** PUT api/posts/:post_id *)
Definition update_post (q : request) : M unit :=
  if negb (text_ok q) then text_required else
  catch (o <- find_post (req_post_id q) ;;
         match o with
         | None => post_not_found
         | Some p =>
             if negb (String.eqb (post_user p) (req_user q)) then not_authorized
             else let p' := set_text p (req_text q) in
                  save p' ;;; send 200 (BMsgPost "Post updated" p')
         end)
        on_lookup_error.

(** [like.user.toString() === req.user.id] *)
Definition by_caller (q : request) (l : like) : bool :=
  String.eqb (like_user l) (req_user q).

(** PUT api/posts/:post_id/like *)
Definition like_post (q : request) : M unit :=
  catch (o <- find_post (req_post_id q) ;;
         match o with
         | None => post_not_found
         | Some p =>
             if 0 <? length (filter (by_caller q) (likes p))
             then send 400 (BMsg "Post already liked")
             else let p' := set_likes p (mkLike (req_fresh q) (req_user q) :: likes p) in
                  save p' ;;; send 200 (BLikes (likes p'))
         end)
        on_lookup_error.

(** PUT api/posts/:post_id/unlike *)
Definition unlike_post (q : request) : M unit :=
  catch (o <- find_post (req_post_id q) ;;
         match o with
         | None => post_not_found
         | Some p =>
             if length (filter (by_caller q) (likes p)) =? 0
             then send 400 (BMsg "Post has not yet been liked")
             else let removeIndex := index_of (req_user q) (map like_user (likes p)) in
                  let p' := set_likes p (splice1 (likes p) removeIndex) in
                  save p' ;;; send 200 (BLikes (likes p'))
         end)
        on_lookup_error.

(** POST api/posts/:post_id/comments *)
Definition add_comment (dir : list user) (q : request) : M unit :=
  if negb (text_ok q) then text_required else
  catch (user <- ret (find_user dir (req_user q)) ;;
         o <- find_post (req_post_id q) ;;
         match o with
         | None => post_not_found
         | Some p =>
             u <- deref user ;;
             let newComment := mkComment (req_fresh q) (req_text q) (user_name u)
                                 (user_avatar u) (req_user q) (req_now q) in
             let p' := set_comments p (newComment :: comments p) in
             save p' ;;; send 200 (BComments (comments p'))
         end)
        on_lookup_error.

(** The [map] callback of PUT api/posts/:post_id/comments/:comment_id. *)
Definition update_cb (q : request) (c : comment) : M citem :=
  if String.eqb (comment_id c) (req_comment_id q) then
    if negb (String.eqb (c_user c) (req_user q))
    then not_authorized ;;; ret CRes
    else ret (CDoc (set_c_text c (req_text q)))
  else ret (CDoc c).

(** PUT api/posts/:post_id/comments/:comment_id *)
Definition update_comment (q : request) : M unit :=
  if negb (text_ok q) then text_required else
  catch (o <- find_post (req_post_id q) ;;
         match o with
         | None => post_not_found
         | Some p =>
             newCommentArray <- mapM (update_cb q) (comments p) ;;
             p' <- save_items p newCommentArray ;;
             send 200 (BComments (comments p'))
         end)
        on_lookup_error.

(** The [filter] callback of DELETE api/posts/:post_id/comments/:comment_id:
    the response object it returns for a foreign comment is truthy. *)
Definition delete_cb (q : request) (c : comment) : M bool :=
  if String.eqb (comment_id c) (req_comment_id q) then
    if negb (String.eqb (c_user c) (req_user q))
    then not_authorized ;;; ret true
    else ret false
  else ret true.

(** DELETE api/posts/:post_id/comments/:comment_id *)
Definition delete_comment (q : request) : M unit :=
  catch (o <- find_post (req_post_id q) ;;
         match o with
         | None => post_not_found
         | Some p =>
             newCommentArray <- filterM (delete_cb q) (comments p) ;;
             p' <- save_items p (map CDoc newCommentArray) ;;
             send 200 (BComments (comments p'))
         end)
        on_lookup_error.

Inductive route :=
| CreatePost | GetPosts | GetPost | DeletePost | UpdatePost
| LikePost | UnlikePost | AddComment | UpdateComment | DeleteComment.

(** The routes whose body is validated before the handler runs. *)
Definition validated (r : route) : bool :=
  match r with
  | CreatePost | UpdatePost | AddComment | UpdateComment => true
  | _ => false
  end.

(** The routes that look a post up by [req.params.post_id]. *)
Definition id_bearing (r : route) : bool :=
  match r with
  | CreatePost | GetPosts => false
  | _ => true
  end.

Definition handle (dir : list user) (r : route) (q : request) : M unit :=
  match r with
  | CreatePost => create_post dir q
  | GetPosts => get_posts
  | GetPost => get_post q
  | DeletePost => delete_post q
  | UpdatePost => update_post q
  | LikePost => like_post q
  | UnlikePost => unlike_post q
  | AddComment => add_comment dir q
  | UpdateComment => update_comment q
  | DeleteComment => delete_comment q
  end.

(** One request against the collection [st], on a fresh response object. *)
Definition run (dir : list user) (r : route) (q : request) (st : list post)
  : outcome unit * world :=
  handle dir r q (mkWorld st false []).

End Handlers.

(** ** Reachable collections *)

(** The collections the routes can produce from an empty database, one
    request at a time (each request runs to completion). *)
Inductive reachable : list post -> Prop :=
| reach_init : reachable []
| reach_step : forall st cr dir r q o w,
    reachable st -> run cr dir r q st = (o, w) -> reachable (store w).

(** ** Invariants of like lists

    [safe_for good m Q]: when every stored post's id and like list satisfy
    [good], they still do after [m], and [Q] holds of the value [m]
    returns. *)

Definition good_post_for (good : string -> list like -> Prop) (p : post) : Prop :=
  good (post_id p) (likes p).

Definition inv_for (good : string -> list like -> Prop) (st : list post) : Prop :=
  Forall (good_post_for good) st.

Definition safe_for (good : string -> list like -> Prop) {A} (m : M A)
  (Q : A -> Prop) : Prop :=
  forall w, inv_for good (store w) ->
    inv_for good (store (snd (m w))) /\ (forall a, fst (m w) = Ok a -> Q a).



(** ** Responses and stored ids

    [nsends tr] counts the responses written in a trace. [silent m]: [m]
    writes no response. [once m]: from a world with no response yet, [m]
    either returns after writing exactly one response, or throws before
    writing any. [total m]: from such a world, [m] returns, having written
    exactly one response. *)
Definition nsends (tr : list event) : nat :=
  length (filter (fun e => match e with EvSend _ => true | _ => false end) tr).


Definition once {A} (m : M A) : Prop :=
  forall w, headersSent w = false ->
    match m w with
    | (Ok _, w') => headersSent w' = true /\ nsends (trace w') = S (nsends (trace w))
    | (Throw _, w') => headersSent w' = false /\ nsends (trace w') = nsends (trace w)
    end.

Definition total {A} (m : M A) : Prop :=
  forall w, headersSent w = false ->
    exists a, fst (m w) = Ok a /\ headersSent (snd (m w)) = true
              /\ nsends (trace (snd (m w))) = S (nsends (trace w)).


(** Every author at most once in a like list. *)
Definition nodup_authors (_ : string) (l : list like) : Prop :=
  NoDup (map like_user l).

(** The order of [Post.find({}).sort({ date: -1 })]. *)
Definition newer_or_same (a b : post) : Prop := date b <= date a.

(** ** Sample data *)

Definition bug_comment : comment :=
  mkComment "5f1d7f0c2b3a4e00000000c1" "first!" "Bob" "bob.png" "u2" 7.

Definition bug_post : post :=
  mkPost "5f1d7f0c2b3a4e0000000001" "hello" "Ann" "ann.png" "u1" []
    [bug_comment] 5.

(** The author of the post, [u1], edits or deletes [u2]'s comment. *)
Definition bug_req : request :=
  mkReq "u1" "5f1d7f0c2b3a4e0000000001" "5f1d7f0c2b3a4e00000000c1" "edited"
    "5f1d7f0c2b3a4e0000000002" 9.

(** A post liked by [u2], [u1] and [u3], in this order. *)
Definition ex_post : post :=
  mkPost "5f1d7f0c2b3a4e0000000001" "hello" "Ann" "ann.png" "u1"
    [mkLike "5f1d7f0c2b3a4e00000000a1" "u2"; mkLike "5f1d7f0c2b3a4e00000000a2" "u1";
     mkLike "5f1d7f0c2b3a4e00000000a3" "u3"]
    [bug_comment] 5.

Definition ex_dir : list user :=
  [mkUser "u1" "Ann" "ann.png"; mkUser "u2" "Bob" "bob.png"].

(** [u1] on [ex_post], naming a comment id that is not a comment of it. *)
Definition ex_req : request :=
  mkReq "u1" "5f1d7f0c2b3a4e0000000001" "no-such-comment" "edited"
    "5f1d7f0c2b3a4e0000000002" 9.

(** [u4], who does not like [ex_post]. *)
Definition ex_req_u4 : request :=
  mkReq "u4" "5f1d7f0c2b3a4e0000000001" "" "" "5f1d7f0c2b3a4e0000000003" 10.

(** A request whose post id is not an ObjectId. *)
Definition ex_req_bad : request :=
  mkReq "u1" "not-an-id" "" "edited" "5f1d7f0c2b3a4e0000000002" 9.

(** A collection reached by creating a post and liking it. *)
Definition ex_create : request :=
  mkReq "u1" "" "" "hello" "5f1d7f0c2b3a4e0000000001" 5.

Definition ex_st : list post :=
  store (snd (run None ex_dir LikePost ex_req
                (store (snd (run None ex_dir CreatePost ex_create []))))).

(** A second post, by [u2]. *)
Definition ex_other : post :=
  mkPost "5f1d7f0c2b3a4e0000000009" "other" "Bob" "bob.png" "u2" [] [] 6.

(** [u2], the author of [bug_comment], editing or deleting it. *)
Definition ex_req_u2 : request :=
  mkReq "u2" "5f1d7f0c2b3a4e0000000001" "5f1d7f0c2b3a4e00000000c1" "edited"
    "5f1d7f0c2b3a4e0000000005" 12.

(** [u3], who is not in [ex_dir]. *)
Definition ex_req_u3 : request :=
  mkReq "u3" "5f1d7f0c2b3a4e0000000001" "" "nice" "5f1d7f0c2b3a4e0000000004" 11.

Definition ex_comment_a : comment :=
  mkComment "5f1d7f0c2b3a4e00000000c0" "second" "Ann" "ann.png" "u1" 8.

Definition ex_comment_b : comment :=
  mkComment "5f1d7f0c2b3a4e00000000c2" "older" "Ann" "ann.png" "u1" 6.

(** [ex_post] with [bug_comment] between two comments of [u1]. *)
Definition ex_thread : post :=
  mkPost "5f1d7f0c2b3a4e0000000001" "hello" "Ann" "ann.png" "u1" []
    [ex_comment_a; bug_comment; ex_comment_b] 5.

(** ** Store lemmas *)

Lemma find_by_id_In : forall st x p,
  find_by_id st x = Some p -> In p st /\ post_id p = x.
Proof.
  induction st as [|q st IH]; simpl; intros x p H; [discriminate|].
  destruct (String.eqb_spec (post_id q) x) as [E|E].
  - injection H as <-. auto.
  - destruct (IH x p H). auto.
Qed.

Lemma find_by_id_app_none : forall st x p,
  find_by_id st x = None ->
  find_by_id (st ++ [p]) x = if String.eqb (post_id p) x then Some p else None.
Proof.
  induction st as [|q st IH]; simpl; intros x p H.
  - destruct (String.eqb (post_id p) x); reflexivity.
  - destruct (String.eqb (post_id q) x); [discriminate|]. auto.
Qed.

Lemma find_by_id_app_some : forall st x p q,
  find_by_id st x = Some q -> find_by_id (st ++ [p]) x = Some q.
Proof.
  induction st as [|r st IH]; simpl; intros x p q H; [discriminate|].
  destruct (String.eqb (post_id r) x); auto.
Qed.

Lemma find_by_id_map_put : forall st p x,
  find_by_id (map (fun q => if String.eqb (post_id q) (post_id p) then p else q) st) x
  = if String.eqb (post_id p) x
    then (if existsb (fun q => String.eqb (post_id q) (post_id p)) st
          then Some p else None)
    else find_by_id st x.
Proof.
  induction st as [|q st IH]; simpl; intros p x.
  - destruct (String.eqb (post_id p) x); reflexivity.
  - destruct (String.eqb_spec (post_id q) (post_id p)) as [E1|E1]; simpl.
    + rewrite IH. destruct (String.eqb_spec (post_id p) x) as [E2|E2]; auto.
      rewrite E1. apply String.eqb_neq in E2. now rewrite E2.
    + rewrite IH. destruct (String.eqb_spec (post_id p) x) as [E2|E2];
      destruct (String.eqb_spec (post_id q) x) as [E3|E3]; auto; congruence.
Qed.

Lemma find_by_id_none_existsb : forall st x,
  existsb (fun q => String.eqb (post_id q) x) st = false ->
  find_by_id st x = None.
Proof.
  induction st as [|q st IH]; simpl; intros x H; auto.
  apply orb_false_iff in H as [H1 H2]. rewrite H1. auto.
Qed.

(** [findById] after [save]: the saved document is found under its id, the
    others are unchanged. *)
Lemma find_store_put : forall st p x,
  find_by_id (store_put p st) x
  = if String.eqb (post_id p) x then Some p else find_by_id st x.
Proof.
  intros st p x. unfold store_put.
  destruct (existsb (fun q => String.eqb (post_id q) (post_id p)) st) eqn:E.
  - rewrite find_by_id_map_put, E. reflexivity.
  - destruct (String.eqb_spec (post_id p) x) as [<-|N].
    + rewrite find_by_id_app_none, String.eqb_refl; auto.
      apply find_by_id_none_existsb. exact E.
    + destruct (find_by_id st x) eqn:F.
      * apply find_by_id_app_some. exact F.
      * rewrite find_by_id_app_none by exact F.
        apply String.eqb_neq in N. now rewrite N.
Qed.

Lemma find_store_remove : forall st x,
  find_by_id (store_remove x st) x = None.
Proof.
  induction st as [|q st IH]; simpl; intros x; auto.
  destruct (String.eqb_spec (post_id q) x) as [E|E]; simpl; auto.
  apply String.eqb_neq in E. rewrite E. auto.
Qed.

Lemma In_store_put : forall st p q,
  In q (store_put p st) -> q = p \/ In q st.
Proof.
  intros st p q. unfold store_put.
  destruct (existsb _ st).
  - intros H. apply in_map_iff in H as [r [Hr Hin]].
    destruct (String.eqb (post_id r) (post_id p)); subst; auto.
  - intros H. apply in_app_or in H as [H|[H|[]]]; auto.
Qed.

Lemma In_store_remove : forall st x q,
  In q (store_remove x st) -> In q st.
Proof.
  intros st x q H. unfold store_remove in H. apply filter_In in H. tauto.
Qed.

(** Removing the element at [n], if any: the shape of [splice(n, 1)]. *)
Lemma drop_one_shape {A} n (l : list A) :
  firstn n l ++ skipn (n + 1) l = l
  \/ exists a z b, l = a ++ z :: b /\ firstn n l ++ skipn (n + 1) l = a ++ b.
Proof.
  revert n. induction l as [|y l IH]; intros n.
  - left. now rewrite firstn_nil, skipn_nil.
  - destruct n as [|n]; simpl.
    + right. exists [], y, l. auto.
    + destruct (IH n) as [E|[a [z [b [E1 E2]]]]].
      * left. now rewrite E.
      * right. exists (y :: a), z, b. split; [rewrite E1|rewrite E2]; reflexivity.
Qed.

Lemma nodup_authors_drop : forall x a l b,
  nodup_authors x (a ++ l :: b) -> nodup_authors x (a ++ b).
Proof.
  unfold nodup_authors. intros x a l b. rewrite !map_app. simpl.
  apply NoDup_remove_1.
Qed.

(** The duplicate check of the like and unlike handlers. *)
Lemma filter_by_caller_nil q l :
  length (filter (by_caller q) l) = 0 <-> ~ In (req_user q) (map like_user l).
Proof.
  split.
  - intros H Hin. apply in_map_iff in Hin as [x [Hx Hin]].
    assert (Hf : In x (filter (by_caller q) l)).
    { apply filter_In. split; auto. unfold by_caller. rewrite Hx. apply String.eqb_refl. }
    destruct (filter (by_caller q) l); [contradiction|discriminate].
  - intros H. destruct (filter (by_caller q) l) as [|x xs] eqn:E; auto.
    exfalso. assert (Hx : In x (filter (by_caller q) l)) by (rewrite E; left; auto).
    apply filter_In in Hx as [Hin Hx]. apply H, in_map_iff. exists x.
    split; auto. apply String.eqb_eq. exact Hx.
Qed.

(** ** Invariants of the like lists

    A property [good] of a post's id and like list, kept by every handler
    that does not add likes when it holds of every stored post. *)

Section LikeInvariant.

Variable cr : option comment.
Variable dir : list user.
Variable good : string -> list like -> Prop.

Hypothesis good_nil : forall x, good x [].
Hypothesis good_drop : forall x a l b, good x (a ++ l :: b) -> good x (a ++ b).

Local Abbreviation good_post := (good_post_for good).
Local Abbreviation inv := (inv_for good).
Local Abbreviation safe := (safe_for good).

Lemma safe_ret {A} (a : A) (Q : A -> Prop) : Q a -> safe (ret a) Q.
Proof. intros HQ w Hw. split; [exact Hw|]. intros a' E. now injection E as <-. Qed.

Lemma safe_throw {A} e (Q : A -> Prop) : safe (throw e) Q.
Proof. intros w Hw. split; [exact Hw|discriminate]. Qed.

Lemma safe_bind {A B} (m : M A) (k : A -> M B) P Q :
  safe m P -> (forall a, P a -> safe (k a) Q) -> safe (bind m k) Q.
Proof.
  intros Hm Hk w Hw. unfold bind.
  destruct (Hm w Hw) as [H1 H2].
  destruct (m w) as [[a|e] w'] eqn:E; simpl in *.
  - exact (Hk a (H2 a eq_refl) w' H1).
  - split; [exact H1|discriminate].
Qed.

Lemma safe_catch {A} (m : M A) h Q :
  safe m Q -> (forall e, safe (h e) Q) -> safe (catch m h) Q.
Proof.
  intros Hm Hh w Hw. unfold catch.
  destruct (Hm w Hw) as [H1 H2].
  destruct (m w) as [[a|e] w'] eqn:E; simpl in *.
  - split; auto.
  - exact (Hh e w' H1).
Qed.

Lemma safe_send s b : safe (send s b) (fun _ => True).
Proof. intros w Hw. unfold send. destruct (headersSent w); simpl; auto. Qed.

Lemma safe_find x :
  safe (find_post x) (fun o => forall p, o = Some p -> good_post p).
Proof.
  intros w Hw. unfold find_post. destruct (valid_oid x); simpl;
    split; auto; [|discriminate].
  intros o E p ->. injection E as E.
  apply find_by_id_In in E as [E _].
  exact (proj1 (Forall_forall _ _) Hw p E).
Qed.

Lemma safe_write p : good_post p -> safe (write p) (fun _ => True).
Proof.
  intros Hp w Hw. simpl. split; auto.
  apply Forall_forall. intros q Hq. apply In_store_put in Hq as [->|Hq]; auto.
  exact (proj1 (Forall_forall _ _) Hw q Hq).
Qed.

Lemma safe_remove p : safe (remove p) (fun _ => True).
Proof.
  intros w Hw. simpl. split; auto.
  apply Forall_forall. intros q Hq. apply In_store_remove in Hq.
  exact (proj1 (Forall_forall _ _) Hw q Hq).
Qed.

Lemma safe_deref {A} (o : option A) : safe (deref o) (fun _ => True).
Proof. destruct o; [apply safe_ret; auto|apply safe_throw]. Qed.

Lemma safe_find_all : safe find_all_sorted (fun _ => True).
Proof. intros w Hw. simpl. auto. Qed.

Lemma safe_mapM {A B} (f : A -> M B) l :
  (forall x, safe (f x) (fun _ => True)) -> safe (mapM f l) (fun _ => True).
Proof.
  intros Hf. induction l as [|x l IH]; simpl.
  - apply safe_ret; auto.
  - eapply safe_bind; [apply Hf|intros y _].
    eapply safe_bind; [apply IH|intros ys _]. apply safe_ret; auto.
Qed.

Lemma safe_filterM {A} (f : A -> M bool) l :
  (forall x, safe (f x) (fun _ => True)) -> safe (filterM f l) (fun _ => True).
Proof.
  intros Hf. induction l as [|x l IH]; simpl.
  - apply safe_ret; auto.
  - eapply safe_bind; [apply Hf|intros y _].
    eapply safe_bind; [apply IH|intros ys _]. apply safe_ret; auto.
Qed.

Lemma safe_save_items p items :
  good_post p -> safe (save_items cr p items) (fun _ => True).
Proof.
  intros Hp. unfold save_items. destruct (cast_items cr items).
  - eapply safe_bind; [apply safe_write; exact Hp|intros _ _].
    apply safe_ret; auto.
  - apply safe_throw.
Qed.

Lemma good_splice1 x l i : good x l -> good x (splice1 l i).
Proof.
  unfold splice1. cbv zeta.
  match goal with |- _ -> good x (firstn ?n _ ++ _) =>
    destruct (drop_one_shape n l) as [E|[a [z [b [E1 E2]]]]] end;
    [rewrite E; auto|rewrite E2].
  intros H. rewrite E1 in H. apply (good_drop x a z b). exact H.
Qed.

Ltac safe_step :=
  match goal with
  | |- safe (catch _ _) _ => apply safe_catch; [|intros ?]
  | |- safe (bind (find_post _) _) _ =>
      eapply safe_bind;
        [apply safe_find|intros [?p|] ?Hp; [specialize (Hp _ eq_refl)|]]
  | |- safe (bind _ _) _ =>
      eapply safe_bind;
        [first [ apply safe_send | apply safe_remove | apply safe_deref
               | apply safe_find_all
               | apply safe_write
               | apply safe_save_items
               | apply (safe_ret _ (fun _ => True)); exact I
               | idtac ]
        |intros ? ?]
  | |- safe (ret _) _ => apply safe_ret; exact I
  | |- safe (send _ _) _ => apply safe_send
  | |- safe (if ?b then _ else _) _ => destruct b eqn:?Hb
  | |- safe (on_lookup_error ?e) _ =>
      unfold on_lookup_error; destruct (err_kind e) as [?k|]; [destruct (String.eqb _ _)|]
  | |- safe text_required _ => apply safe_send
  | |- safe server_error _ => apply safe_send
  | |- safe post_not_found _ => apply safe_send
  | |- safe not_authorized _ => apply safe_send
  end.

Ltac safe_solve :=
  repeat first
    [ safe_step
    | match goal with
      | |- safe (let _ := _ in _) _ => cbv zeta
      | |- safe (mapM _ _) _ => apply safe_mapM; intros ?
      | |- safe (filterM _ _) _ => apply safe_filterM; intros ?
      | |- safe (update_cb _ _) _ => unfold update_cb
      | |- safe (delete_cb _ _) _ => unfold delete_cb
      | |- safe (deref _) _ => apply safe_deref
      | |- safe (save _) _ => unfold save; apply safe_write
      | |- good_post _ =>
          unfold good_post_for in *; simpl in *;
          first [ apply good_nil | assumption | apply good_splice1; assumption ]
      end ].

Lemma safe_handle r q :
  r <> LikePost -> safe (handle cr dir r q) (fun _ => True).
Proof.
  intros Hr. destruct r; [| | | | | congruence | | | |]; simpl;
    unfold create_post, get_posts, get_post, delete_post, update_post,
      unlike_post, add_comment, update_comment, delete_comment;
    safe_solve.
Qed.

Lemma safe_run r q st :
  r <> LikePost -> inv st -> inv (store (snd (run cr dir r q st))).
Proof.
  intros Hr Hst. exact (proj1 (safe_handle r q Hr (mkWorld st false []) Hst)).
Qed.

(** The like handler keeps [good] when a new like of an author absent from
    the list does. *)
Lemma safe_like_post q :
  (forall x l i, good x l -> ~ In (req_user q) (map like_user l) ->
                 good x (mkLike i (req_user q) :: l)) ->
  safe (like_post q) (fun _ => True).
Proof.
  intros Hadd. unfold like_post. safe_solve.
  unfold good_post_for in *. simpl. apply Hadd; auto.
  apply filter_by_caller_nil. apply Nat.ltb_ge in Hb. lia.
Qed.

End LikeInvariant.


(** ** Evaluating a handler on a post that is found *)

Lemma catch_find_some {A} x (K : option post -> M A) h w p :
  valid_oid x = true -> find_by_id (store w) x = Some p ->
  catch (bind (find_post x) K) h w = catch (K (Some p)) h w.
Proof. intros Hv Hf. unfold catch, bind, find_post. now rewrite Hv, Hf. Qed.

Lemma catch_find_cast {A} x (K : option post -> M A) h w :
  valid_oid x = false ->
  catch (bind (find_post x) K) h w = h (CastError "ObjectId") w.
Proof. intros Hv. unfold catch, bind, find_post. now rewrite Hv. Qed.

Lemma set_likes_eta p : set_likes p (likes p) = p.
Proof. destruct p; reflexivity. Qed.

Lemma set_comments_eta p : set_comments p (comments p) = p.
Proof. destruct p; reflexivity. Qed.

Lemma caller_liked q l :
  In (req_user q) (map like_user l) -> (0 <? length (filter (by_caller q) l)) = true.
Proof.
  intros H. apply Nat.ltb_lt.
  destruct (length (filter (by_caller q) l)) eqn:E; [|lia].
  apply filter_by_caller_nil in E. contradiction.
Qed.

Lemma caller_not_liked q l :
  ~ In (req_user q) (map like_user l) -> (length (filter (by_caller q) l) =? 0) = true.
Proof. intros H. apply Nat.eqb_eq, filter_by_caller_nil, H. Qed.

(** The first like of [u] in scan order, and where [indexOf] finds it. *)
Lemma first_like_of u l :
  In u (map like_user l) ->
  exists pre x post, l = pre ++ x :: post /\ ~ In u (map like_user pre)
    /\ like_user x = u /\ index_of u (map like_user l) = Z.of_nat (length pre).
Proof.
  induction l as [|a l IH]; simpl; intros H; [contradiction|].
  destruct (String.eqb_spec (like_user a) u) as [E|E].
  - exists [], a, l. simpl. auto.
  - destruct H as [H|H]; [contradiction|].
    destruct (IH H) as [pre [x [post [E1 [E2 [E3 E4]]]]]].
    exists (a :: pre), x, post. rewrite E4. simpl. repeat split; auto.
    + now rewrite E1.
    + intros [H'|H']; auto.
    + destruct (Z.ltb_spec (Z.of_nat (length pre)) 0); lia.
Qed.

Lemma splice1_at {A} (pre : list A) x post :
  splice1 (pre ++ x :: post) (Z.of_nat (length pre)) = pre ++ post.
Proof.
  unfold splice1. cbv zeta.
  replace (Z.to_nat _) with (length pre).
  - induction pre as [|a pre IH]; simpl; auto. now rewrite IH.
  - rewrite length_app. simpl.
    destruct (Z.ltb_spec (Z.of_nat (length pre)) 0); lia.
Qed.

Lemma like_post_rejects cr dir q st p :
  valid_oid (req_post_id q) = true -> find_by_id st (req_post_id q) = Some p ->
  In (req_user q) (map like_user (likes p)) ->
  run cr dir LikePost q st
  = (Ok tt, mkWorld st true [EvSend (mkResp 400 (BMsg "Post already liked"))]).
Proof.
  intros Hv Hf Hin. unfold run, handle, like_post.
  rewrite (catch_find_some _ _ _ (mkWorld st false []) p Hv Hf). cbv beta.
  rewrite (caller_liked _ _ Hin). reflexivity.
Qed.

Lemma unlike_post_rejects cr dir q st p :
  valid_oid (req_post_id q) = true -> find_by_id st (req_post_id q) = Some p ->
  ~ In (req_user q) (map like_user (likes p)) ->
  run cr dir UnlikePost q st
  = (Ok tt, mkWorld st true
              [EvSend (mkResp 400 (BMsg "Post has not yet been liked"))]).
Proof.
  intros Hv Hf Hin. unfold run, handle, unlike_post.
  rewrite (catch_find_some _ _ _ (mkWorld st false []) p Hv Hf). cbv beta.
  rewrite (caller_not_liked _ _ Hin). reflexivity.
Qed.

Lemma like_post_accepts cr dir q st p :
  valid_oid (req_post_id q) = true -> find_by_id st (req_post_id q) = Some p ->
  ~ In (req_user q) (map like_user (likes p)) ->
  let p' := set_likes p (mkLike (req_fresh q) (req_user q) :: likes p) in
  run cr dir LikePost q st
  = (Ok tt, mkWorld (store_put p' st) true
              [EvSave p'; EvSend (mkResp 200 (BLikes (likes p')))]).
Proof.
  intros Hv Hf Hin. unfold run, handle, like_post.
  rewrite (catch_find_some _ _ _ (mkWorld st false []) p Hv Hf). cbv beta.
  replace (0 <? _) with false; [reflexivity|].
  symmetry. apply Nat.ltb_ge.
  apply filter_by_caller_nil in Hin. lia.
Qed.

Lemma unlike_post_accepts cr dir q st p pre x post :
  valid_oid (req_post_id q) = true -> find_by_id st (req_post_id q) = Some p ->
  likes p = pre ++ x :: post -> ~ In (req_user q) (map like_user pre) ->
  like_user x = req_user q ->
  let p' := set_likes p (pre ++ post) in
  run cr dir UnlikePost q st
  = (Ok tt, mkWorld (store_put p' st) true
              [EvSave p'; EvSend (mkResp 200 (BLikes (pre ++ post)))]).
Proof.
  intros Hv Hf Hl Hpre Hx. unfold run, handle, unlike_post.
  rewrite (catch_find_some _ _ _ (mkWorld st false []) p Hv Hf). cbv beta.
  assert (Hin : In (req_user q) (map like_user (likes p))).
  { rewrite Hl, map_app. apply in_or_app. right. left. exact Hx. }
  replace (length _ =? 0) with false.
  2:{ symmetry. apply Nat.eqb_neq. intros E.
      apply filter_by_caller_nil in E. contradiction. }
  destruct (first_like_of _ _ Hin) as [pre' [x' [post' [E1 [E2 [E3 E4]]]]]].
  rewrite E4, E1, splice1_at.
  (* both decompositions find the first like of the caller *)
  assert (Hsame : pre' = pre /\ post' = post).
  { rewrite Hl in E1. clear - E1 E2 E3 Hpre Hx.
    revert pre' E1 E2. induction pre as [|a pre IH]; intros [|a' pre'] E1 E2;
      simpl in *; injection E1 as E1 E1'; subst.
    - auto.
    - exfalso. apply E2. left. auto.
    - exfalso. apply Hpre. left. auto.
    - destruct (IH (fun H => Hpre (or_intror H)) pre' E1'
                  (fun H => E2 (or_intror H))) as [-> ->]. auto. }
  destruct Hsame as [-> ->]. reflexivity.
Qed.

Lemma nodup_authors_nil x : nodup_authors x [].
Proof. constructor. Qed.

Lemma reachable_nodup st : reachable st -> inv_for nodup_authors st.
Proof.
  induction 1 as [|st cr dir r q o w Hr IH Hrun]; [constructor|].
  replace w with (snd (run cr dir r q st)) by (rewrite Hrun; reflexivity).
  destruct r;
    try (apply (safe_run cr dir nodup_authors nodup_authors_nil nodup_authors_drop);
         [discriminate|exact IH]).
  refine (proj1 (safe_like_post nodup_authors q _ (mkWorld st false []) IH)).
  intros x l i Hl Hni. unfold nodup_authors in *. simpl. constructor; auto.
Qed.

(** ** C3: one like per author *)

(** C3: in every collection the routes can reach, a post's like list holds
    at most one like per author; a like request by a caller who already
    likes the post is answered "Post already liked" (400) without touching
    the collection, the caller's like count staying 1; and every route other
    than like only keeps like entries that the same post already had. *)
Theorem like_list_one_per_author : forall st, reachable st ->
  (forall p, In p st -> NoDup (map like_user (likes p))) /\
  (forall cr dir q p,
     valid_oid (req_post_id q) = true -> find_by_id st (req_post_id q) = Some p ->
     In (req_user q) (map like_user (likes p)) ->
     run cr dir LikePost q st
     = (Ok tt, mkWorld st true [EvSend (mkResp 400 (BMsg "Post already liked"))])
     /\ count_occ String.string_dec (map like_user (likes p)) (req_user q) = 1) /\
  (forall cr dir r q, r <> LikePost ->
     forall p', In p' (store (snd (run cr dir r q st))) ->
     forall l, In l (likes p') ->
     exists p, In p st /\ post_id p = post_id p' /\ In l (likes p)).
Proof.
  intros st Hr. pose proof (reachable_nodup st Hr) as Hinv.
  split; [|split].
  - intros p Hp. exact (proj1 (Forall_forall _ _) Hinv p Hp).
  - intros cr dir q p Hv Hf Hin. split.
    + eapply like_post_rejects; eauto.
    + apply find_by_id_In in Hf as [Hp _].
      pose proof (proj1 (Forall_forall _ _) Hinv p Hp) as Hnd.
      exact (proj1 (NoDup_count_occ' String.string_dec _) Hnd _ Hin).
  - intros cr dir r q Hrl.
    set (good := fun x (ls : list like) =>
           forall l, In l ls -> exists p, In p st /\ post_id p = x /\ In l (likes p)).
    assert (Hn : forall x, good x []) by (intros x l []).
    assert (Hd : forall x a l b, good x (a ++ l :: b) -> good x (a ++ b)).
    { intros x a l b H l' Hl'. apply H. apply in_app_or in Hl' as [Hl'|Hl'];
        apply in_or_app; [left|right; right]; exact Hl'. }
    assert (H0 : inv_for good st).
    { apply Forall_forall. intros p Hp l Hl. exists p. auto. }
    pose proof (safe_run cr dir good Hn Hd r q st Hrl H0) as H1.
    intros p' Hp' l Hl. exact (proj1 (Forall_forall _ _) H1 p' Hp' l Hl).
Qed.

(** ** C4, C5, C10: like and unlike *)

(** C10: a like rejected as "already liked" and an unlike rejected as "not
    yet liked" write nothing: the handler answers 400 before any save and
    the collection is the one it loaded. *)
Theorem like_unlike_rejections_atomic : forall cr dir q st p,
  valid_oid (req_post_id q) = true -> find_by_id st (req_post_id q) = Some p ->
  (In (req_user q) (map like_user (likes p)) ->
   run cr dir LikePost q st
   = (Ok tt, mkWorld st true [EvSend (mkResp 400 (BMsg "Post already liked"))])) /\
  (~ In (req_user q) (map like_user (likes p)) ->
   run cr dir UnlikePost q st
   = (Ok tt, mkWorld st true
               [EvSend (mkResp 400 (BMsg "Post has not yet been liked"))])).
Proof.
  intros cr dir q st p Hv Hf. split; intros Hin.
  - eapply like_post_rejects; eauto.
  - eapply unlike_post_rejects; eauto.
Qed.

(** C5: when the caller likes the post, unlike removes exactly the first
    like of the caller in scan order and keeps every other like in its
    order, answering the remaining list; when the caller does not, it is
    answered "Post has not yet been liked". *)
Theorem unlike_removes_first_like : forall cr dir q st p,
  valid_oid (req_post_id q) = true -> find_by_id st (req_post_id q) = Some p ->
  (In (req_user q) (map like_user (likes p)) ->
   exists pre x post,
     likes p = pre ++ x :: post /\ ~ In (req_user q) (map like_user pre)
     /\ like_user x = req_user q
     /\ run cr dir UnlikePost q st
        = (Ok tt, mkWorld (store_put (set_likes p (pre ++ post)) st) true
                    [EvSave (set_likes p (pre ++ post));
                     EvSend (mkResp 200 (BLikes (pre ++ post)))])) /\
  (~ In (req_user q) (map like_user (likes p)) ->
   run cr dir UnlikePost q st
   = (Ok tt, mkWorld st true
               [EvSend (mkResp 400 (BMsg "Post has not yet been liked"))])).
Proof.
  intros cr dir q st p Hv Hf. split; intros Hin.
  - destruct (first_like_of _ _ Hin) as [pre [x [post [E1 [E2 [E3 _]]]]]].
    exists pre, x, post. repeat split; auto.
    apply unlike_post_accepts with (x := x); auto.
  - eapply unlike_post_rejects; eauto.
Qed.

(** C4: when the caller does not like a post, a like followed by an unlike
    of the same caller both succeed, and the stored post afterwards is the
    post as it was, with its like list in the same order. *)
Theorem like_then_unlike_restores : forall cr dir q q' st p,
  req_user q' = req_user q -> req_post_id q' = req_post_id q ->
  valid_oid (req_post_id q) = true -> find_by_id st (req_post_id q) = Some p ->
  ~ In (req_user q) (map like_user (likes p)) ->
  exists w1 w2,
    run cr dir LikePost q st = (Ok tt, w1)
    /\ run cr dir UnlikePost q' (store w1) = (Ok tt, w2)
    /\ find_by_id (store w2) (req_post_id q) = Some p
    /\ trace w2 = [EvSave p; EvSend (mkResp 200 (BLikes (likes p)))].
Proof.
  intros cr dir q q' st p Hu Hi Hv Hf Hin.
  pose proof (like_post_accepts cr dir q st p Hv Hf Hin) as H1. cbv zeta in H1.
  set (p1 := set_likes p (mkLike (req_fresh q) (req_user q) :: likes p)) in H1.
  pose proof (proj2 (find_by_id_In _ _ _ Hf)) as Hid.
  assert (Hf1 : find_by_id (store_put p1 st) (req_post_id q') = Some p1).
  { rewrite find_store_put, Hi. simpl. rewrite Hid, String.eqb_refl. reflexivity. }
  rewrite <- Hi in Hv.
  pose proof (unlike_post_accepts cr dir q' (store_put p1 st) p1 []
                (mkLike (req_fresh q) (req_user q)) (likes p) Hv Hf1 eq_refl
                (fun H => H) (eq_sym Hu)) as H2.
  cbv zeta in H2. simpl app in H2.
  replace (set_likes p1 (likes p)) with p in H2 by (destruct p; reflexivity).
  eexists _, _. split; [exact H1|]. split; [exact H2|]. split; [|reflexivity].
  simpl. rewrite find_store_put, Hid, String.eqb_refl. reflexivity.
Qed.

Lemma catch_bind_step {A B} (m : M A) (k : A -> M B) h w a w' :
  m w = (Ok a, w') -> catch (bind m k) h w = catch (k a) h w'.
Proof. intros E. unfold catch, bind. now rewrite E. Qed.

Lemma mapM_update_cb_nomatch q cs w :
  ~ In (req_comment_id q) (map comment_id cs) ->
  mapM (update_cb q) cs w = (Ok (map CDoc cs), w).
Proof.
  revert w. induction cs as [|c cs IH]; intros w H; [reflexivity|].
  simpl in H. simpl. unfold bind at 1, update_cb.
  destruct (String.eqb_spec (comment_id c) (req_comment_id q)) as [E|E];
    [exfalso; auto|].
  simpl. unfold bind. rewrite IH by auto. reflexivity.
Qed.

Lemma filterM_delete_cb_nomatch q cs w :
  ~ In (req_comment_id q) (map comment_id cs) ->
  filterM (delete_cb q) cs w = (Ok cs, w).
Proof.
  revert w. induction cs as [|c cs IH]; intros w H; [reflexivity|].
  simpl in H. simpl. unfold bind at 1, delete_cb.
  destruct (String.eqb_spec (comment_id c) (req_comment_id q)) as [E|E];
    [exfalso; auto|].
  simpl. unfold bind. rewrite IH by auto. reflexivity.
Qed.

Lemma cast_items_docs cr cs : cast_items cr (map CDoc cs) = Some cs.
Proof. induction cs as [|c cs IH]; simpl; [reflexivity|]. now rewrite IH. Qed.

Lemma text_checked {A} q (a b : A) :
  text_ok q = true -> (if negb (text_ok q) then a else b) = b.
Proof. intros H. now rewrite H. Qed.

(** ** C2: malformed post ids *)

(** C2: on every route that looks a post up by id, a post id that is not a
    valid ObjectId (with a body that passes validation) is answered exactly
    "Post not found" (404), never "Server Error", and nothing is written. *)
Theorem malformed_post_id_not_found : forall cr dir r q st,
  id_bearing r = true -> (validated r = true -> text_ok q = true) ->
  valid_oid (req_post_id q) = false ->
  run cr dir r q st
  = (Ok tt, mkWorld st true [EvSend (mkResp 404 (BMsg "Post not found"))]).
Proof.
  intros cr dir r q st Hid Hval Hv.
  destruct r; try discriminate; simpl in Hval;
    unfold run, handle, get_post, delete_post, update_post, like_post,
      unlike_post, add_comment, update_comment, delete_comment;
    try rewrite (text_checked q _ _ (Hval eq_refl));
    unfold catch, bind, ret, find_post; rewrite Hv; reflexivity.
Qed.

(** ** C6: adding a comment *)

(** C6: on an existing post, with a non-empty text and a caller present in
    the user directory, add-comment saves the post with exactly one new
    comment in front (the text, the caller's directory name and avatar, the
    caller's id), the old comments following in their order, and answers
    that list. *)
Theorem add_comment_prepends : forall cr dir q st p u,
  text_ok q = true ->
  valid_oid (req_post_id q) = true -> find_by_id st (req_post_id q) = Some p ->
  find_user dir (req_user q) = Some u ->
  let c := mkComment (req_fresh q) (req_text q) (user_name u) (user_avatar u)
             (req_user q) (req_now q) in
  let p' := set_comments p (c :: comments p) in
  run cr dir AddComment q st
  = (Ok tt, mkWorld (store_put p' st) true
              [EvSave p'; EvSend (mkResp 200 (BComments (c :: comments p)))])
  /\ find_by_id (store_put p' st) (req_post_id q) = Some p'
  /\ comments p' = c :: comments p
  /\ length (comments p') = S (length (comments p)).
Proof.
  intros cr dir q st p u Ht Hv Hf Hu c p'.
  pose proof (proj2 (find_by_id_In _ _ _ Hf)) as Hid.
  repeat split.
  - unfold run, handle, add_comment. rewrite (text_checked q _ _ Ht).
    unfold catch, bind at 1, ret at 1. cbv beta.
    change (store (mkWorld st false [])) with st in Hf.
    unfold bind at 1, find_post. rewrite Hv.
    change (find_by_id (store (mkWorld st false [])) (req_post_id q))
      with (find_by_id st (req_post_id q)).
    rewrite Hf, Hu. reflexivity.
  - rewrite find_store_put. simpl. now rewrite Hid, String.eqb_refl.
Qed.

(** ** C7: only the author updates or deletes a post *)

(** C7: on an existing post, delete-post and update-post (with a non-empty
    text) by a caller who is not its author are answered "User not
    authorized" (401) and write nothing; by its author, delete-post removes
    it and update-post saves it with the new text, and a later get-post of
    the same id answers "Post not found" or the updated post. *)
Theorem post_author_only : forall cr dir q st p,
  valid_oid (req_post_id q) = true -> find_by_id st (req_post_id q) = Some p ->
  (post_user p <> req_user q ->
   run cr dir DeletePost q st
   = (Ok tt, mkWorld st true [EvSend (mkResp 401 (BMsg "User not authorized"))])
   /\ (text_ok q = true ->
       run cr dir UpdatePost q st
       = (Ok tt, mkWorld st true
                   [EvSend (mkResp 401 (BMsg "User not authorized"))]))) /\
  (post_user p = req_user q ->
   let st_del := store_remove (req_post_id q) st in
   let p' := set_text p (req_text q) in
   let st_upd := store_put p' st in
   run cr dir DeletePost q st
   = (Ok tt, mkWorld st_del true
               [EvRemove (req_post_id q);
                EvSend (mkResp 200 (BMsgPost "Post removed" p))])
   /\ (forall cr' dir' q', req_post_id q' = req_post_id q ->
       run cr' dir' GetPost q' st_del
       = (Ok tt, mkWorld st_del true [EvSend (mkResp 404 (BMsg "Post not found"))]))
   /\ (text_ok q = true ->
       run cr dir UpdatePost q st
       = (Ok tt, mkWorld st_upd true
                   [EvSave p'; EvSend (mkResp 200 (BMsgPost "Post updated" p'))]))
   /\ (forall cr' dir' q', req_post_id q' = req_post_id q ->
       run cr' dir' GetPost q' st_upd
       = (Ok tt, mkWorld st_upd true [EvSend (mkResp 200 (BPost p'))]))).
Proof.
  intros cr dir q st p Hv Hf.
  pose proof (proj2 (find_by_id_In _ _ _ Hf)) as Hid.
  split.
  - intros Hne. apply String.eqb_neq in Hne. split; [|intros Ht].
    + unfold run, handle, delete_post.
      rewrite (catch_find_some _ _ _ (mkWorld st false []) p Hv Hf). cbv beta.
      rewrite Hne. reflexivity.
    + unfold run, handle, update_post. rewrite (text_checked q _ _ Ht).
      rewrite (catch_find_some _ _ _ (mkWorld st false []) p Hv Hf). cbv beta.
      rewrite Hne. reflexivity.
  - intros He. apply String.eqb_eq in He. cbv zeta.
    repeat split; [| intros cr' dir' q' Hq | intros Ht | intros cr' dir' q' Hq].
    + unfold run, handle, delete_post.
      rewrite (catch_find_some _ _ _ (mkWorld st false []) p Hv Hf). cbv beta.
      rewrite He, <- Hid. reflexivity.
    + unfold run, handle, get_post, catch, bind, find_post.
      rewrite Hq, Hv. simpl. now rewrite find_store_remove.
    + unfold run, handle, update_post. rewrite (text_checked q _ _ Ht).
      rewrite (catch_find_some _ _ _ (mkWorld st false []) p Hv Hf). cbv beta.
      rewrite He. reflexivity.
    + unfold run, handle, get_post, catch, bind, find_post.
      rewrite Hq, Hv. simpl. rewrite find_store_put. simpl.
      now rewrite Hid, String.eqb_refl.
Qed.

(** ** C8: listing *)

Lemma insert_desc_perm p l : Permutation (p :: l) (insert_desc p l).
Proof.
  induction l as [|q l IH]; simpl; [reflexivity|].
  destruct (date q <? date p); [reflexivity|].
  rewrite perm_swap. constructor. exact IH.
Qed.

Lemma sort_date_desc_perm l : Permutation l (sort_date_desc l).
Proof.
  induction l as [|p l IH]; simpl; [constructor|].
  rewrite <- insert_desc_perm. constructor. exact IH.
Qed.

Lemma insert_desc_sorted p l :
  Sorted newer_or_same l -> Sorted newer_or_same (insert_desc p l).
Proof.
  induction 1 as [|q l Hs IH Hd]; simpl.
  - repeat constructor.
  - destruct (Nat.ltb_spec (date q) (date p)) as [Hlt|Hge].
    + constructor; [constructor; auto|]. constructor. unfold newer_or_same. lia.
    + constructor; [exact IH|].
      destruct l as [|r l]; simpl.
      * constructor. unfold newer_or_same. lia.
      * inversion Hd; subst. destruct (date r <? date p); constructor;
          unfold newer_or_same in *; lia.
Qed.

Lemma sort_date_desc_sorted l : Sorted newer_or_same (sort_date_desc l).
Proof.
  induction l as [|p l IH]; simpl; [constructor|]. apply insert_desc_sorted, IH.
Qed.

(** C8: list-posts answers every stored post, and only those, ordered by
    creation date from the newest, with no paging or filtering. *)
Theorem get_posts_newest_first : forall cr dir q st,
  exists l,
    run cr dir GetPosts q st
    = (Ok tt, mkWorld st true [EvSend (mkResp 200 (BPosts l))])
    /\ Permutation st l /\ Sorted (fun a b => date b <= date a) l.
Proof.
  intros cr dir q st. exists (sort_date_desc st). split; [reflexivity|].
  split; [apply sort_date_desc_perm|apply sort_date_desc_sorted].
Qed.

(** ** C9: a comment id that matches no comment *)

(** C9: on an existing post, update-comment (with a non-empty text) and
    delete-comment with a comment id that matches no comment of the post
    (a malformed id included) save the post as it is and answer 200 with the
    unchanged comment list; no "not found" is produced. *)
Theorem unmatched_comment_id_noop : forall cr dir q st p,
  valid_oid (req_post_id q) = true -> find_by_id st (req_post_id q) = Some p ->
  ~ In (req_comment_id q) (map comment_id (comments p)) ->
  run cr dir DeleteComment q st
  = (Ok tt, mkWorld (store_put p st) true
              [EvSave p; EvSend (mkResp 200 (BComments (comments p)))])
  /\ (text_ok q = true ->
      run cr dir UpdateComment q st
      = (Ok tt, mkWorld (store_put p st) true
                  [EvSave p; EvSend (mkResp 200 (BComments (comments p)))]))
  /\ find_by_id (store_put p st) (req_post_id q) = Some p.
Proof.
  intros cr dir q st p Hv Hf Hn.
  pose proof (proj2 (find_by_id_In _ _ _ Hf)) as Hid.
  split; [|split; [intros Ht|]].
  - unfold run, handle, delete_comment.
    rewrite (catch_find_some _ _ _ (mkWorld st false []) p Hv Hf). cbv beta.
    rewrite (catch_bind_step _ _ _ _ _ _ (filterM_delete_cb_nomatch q _ _ Hn)).
    unfold save_items. rewrite cast_items_docs, set_comments_eta. reflexivity.
  - unfold run, handle, update_comment. rewrite (text_checked q _ _ Ht).
    rewrite (catch_find_some _ _ _ (mkWorld st false []) p Hv Hf). cbv beta.
    rewrite (catch_bind_step _ _ _ _ _ _ (mapM_update_cb_nomatch q _ _ Hn)).
    unfold save_items. rewrite cast_items_docs, set_comments_eta. reflexivity.
  - rewrite find_store_put, Hid, String.eqb_refl. reflexivity.
Qed.

(** ** C1: a comment of another author *)

(** C1 (failing input): the 401 sent from inside the [filter] / [map]
    callback does not end the handler. Delete-comment answers 401, then
    saves the post (the callback's truthy return kept the comment) and
    tries a second response, which throws; the [catch] block's 500 throws
    again and the error escapes the handler. Update-comment answers 401,
    then assigns the array holding the response object to [post.comments]
    and saves it: if the schema turns the object into a comment [c], the
    stored post now has [c] in place of the comment; if it rejects it, the
    save fails and the 500 of the [catch] block throws. *)
Theorem foreign_comment_not_aborted :
  (forall cr,
     run cr [] DeleteComment bug_req [bug_post]
     = (Throw HeadersSent,
        mkWorld [bug_post] true
          [EvSend (mkResp 401 (BMsg "User not authorized")); EvSave bug_post]))
  /\ (forall c,
     run (Some c) [] UpdateComment bug_req [bug_post]
     = (Throw HeadersSent,
        mkWorld [set_comments bug_post [c]] true
          [EvSend (mkResp 401 (BMsg "User not authorized"));
           EvSave (set_comments bug_post [c])]))
  /\ run None [] UpdateComment bug_req [bug_post]
     = (Throw HeadersSent,
        mkWorld [bug_post] true [EvSend (mkResp 401 (BMsg "User not authorized"))]).
Proof. repeat split; intros; reflexivity. Qed.

(** ** Witnesses: the claims' hypotheses hold of the sample data *)

Lemma reach_run st cr dir r q :
  reachable st -> reachable (store (snd (run cr dir r q st))).
Proof.
  intros H. apply (reach_step st cr dir r q (fst (run cr dir r q st))); auto.
  apply surjective_pairing.
Qed.

Lemma like_list_one_per_author_witness :
  reachable ex_st
  /\ map (fun p => map like_user (likes p)) ex_st = [["u1"]]
  /\ (forall p, In p ex_st -> NoDup (map like_user (likes p))).
Proof.
  assert (R : reachable ex_st) by (apply reach_run, reach_run, reach_init).
  split; [exact R|split; [reflexivity|]].
  exact (proj1 (like_list_one_per_author ex_st R)).
Defined.

Lemma malformed_post_id_not_found_witness :
  id_bearing UpdateComment = true /\ text_ok ex_req_bad = true
  /\ valid_oid (req_post_id ex_req_bad) = false
  /\ run None ex_dir UpdateComment ex_req_bad [ex_post]
     = (Ok tt, mkWorld [ex_post] true [EvSend (mkResp 404 (BMsg "Post not found"))]).
Proof.
  split; [reflexivity|]. split; [reflexivity|]. split; [reflexivity|].
  apply malformed_post_id_not_found; [reflexivity|intros _; reflexivity|reflexivity].
Defined.

Lemma like_unlike_rejections_atomic_witness :
  valid_oid (req_post_id ex_req) = true
  /\ find_by_id [ex_post] (req_post_id ex_req) = Some ex_post
  /\ In (req_user ex_req) (map like_user (likes ex_post))
  /\ run None ex_dir LikePost ex_req [ex_post]
     = (Ok tt, mkWorld [ex_post] true
                 [EvSend (mkResp 400 (BMsg "Post already liked"))]).
Proof.
  split; [reflexivity|]. split; [reflexivity|].
  split; [simpl; auto|].
  apply (proj1 (like_unlike_rejections_atomic None ex_dir ex_req [ex_post] ex_post
                  eq_refl eq_refl)).
  simpl; auto.
Defined.

Lemma unlike_removes_first_like_witness :
  valid_oid (req_post_id ex_req) = true
  /\ find_by_id [ex_post] (req_post_id ex_req) = Some ex_post
  /\ In (req_user ex_req) (map like_user (likes ex_post))
  /\ exists pre x post,
       likes ex_post = pre ++ x :: post /\ ~ In (req_user ex_req) (map like_user pre)
       /\ like_user x = req_user ex_req
       /\ run None ex_dir UnlikePost ex_req [ex_post]
          = (Ok tt, mkWorld (store_put (set_likes ex_post (pre ++ post)) [ex_post]) true
                      [EvSave (set_likes ex_post (pre ++ post));
                       EvSend (mkResp 200 (BLikes (pre ++ post)))]).
Proof.
  split; [reflexivity|]. split; [reflexivity|].
  split; [simpl; auto|].
  apply (proj1 (unlike_removes_first_like None ex_dir ex_req [ex_post] ex_post
                  eq_refl eq_refl)).
  simpl; auto.
Defined.

Lemma like_then_unlike_restores_witness :
  valid_oid (req_post_id ex_req_u4) = true
  /\ find_by_id [ex_post] (req_post_id ex_req_u4) = Some ex_post
  /\ ~ In (req_user ex_req_u4) (map like_user (likes ex_post))
  /\ exists w1 w2,
       run None ex_dir LikePost ex_req_u4 [ex_post] = (Ok tt, w1)
       /\ run None ex_dir UnlikePost ex_req_u4 (store w1) = (Ok tt, w2)
       /\ find_by_id (store w2) (req_post_id ex_req_u4) = Some ex_post
       /\ trace w2 = [EvSave ex_post; EvSend (mkResp 200 (BLikes (likes ex_post)))].
Proof.
  assert (N : ~ In (req_user ex_req_u4) (map like_user (likes ex_post))).
  { simpl. intuition discriminate. }
  split; [reflexivity|]. split; [reflexivity|]. split; [exact N|].
  exact (like_then_unlike_restores None ex_dir ex_req_u4 ex_req_u4 [ex_post] ex_post
           eq_refl eq_refl eq_refl eq_refl N).
Defined.

Lemma add_comment_prepends_witness :
  text_ok ex_req = true /\ valid_oid (req_post_id ex_req) = true
  /\ find_by_id [ex_post] (req_post_id ex_req) = Some ex_post
  /\ find_user ex_dir (req_user ex_req) = Some (mkUser "u1" "Ann" "ann.png")
  /\ comments (set_comments ex_post
                 (mkComment "5f1d7f0c2b3a4e0000000002" "edited" "Ann" "ann.png" "u1" 9
                  :: comments ex_post))
     = [mkComment "5f1d7f0c2b3a4e0000000002" "edited" "Ann" "ann.png" "u1" 9;
        bug_comment].
Proof.
  split; [reflexivity|]. split; [reflexivity|]. split; [reflexivity|].
  split; [reflexivity|].
  exact (proj1 (proj2 (proj2
           (add_comment_prepends None ex_dir ex_req [ex_post] ex_post
              (mkUser "u1" "Ann" "ann.png") eq_refl eq_refl eq_refl eq_refl)))).
Defined.

Lemma post_author_only_witness :
  valid_oid (req_post_id ex_req) = true
  /\ find_by_id [ex_post] (req_post_id ex_req) = Some ex_post
  /\ post_user ex_post = req_user ex_req
  /\ run None ex_dir DeletePost ex_req [ex_post]
     = (Ok tt, mkWorld [] true
                 [EvRemove (req_post_id ex_req);
                  EvSend (mkResp 200 (BMsgPost "Post removed" ex_post))]).
Proof.
  split; [reflexivity|]. split; [reflexivity|]. split; [reflexivity|].
  exact (proj1 (proj2 (post_author_only None ex_dir ex_req [ex_post] ex_post
                         eq_refl eq_refl) eq_refl)).
Defined.

Lemma unmatched_comment_id_noop_witness :
  valid_oid (req_post_id ex_req) = true
  /\ find_by_id [ex_post] (req_post_id ex_req) = Some ex_post
  /\ ~ In (req_comment_id ex_req) (map comment_id (comments ex_post))
  /\ run None ex_dir DeleteComment ex_req [ex_post]
     = (Ok tt, mkWorld (store_put ex_post [ex_post]) true
                 [EvSave ex_post; EvSend (mkResp 200 (BComments (comments ex_post)))]).
Proof.
  assert (N : ~ In (req_comment_id ex_req) (map comment_id (comments ex_post))).
  { simpl. intuition discriminate. }
  split; [reflexivity|]. split; [reflexivity|]. split; [exact N|].
  exact (proj1 (unmatched_comment_id_noop None ex_dir ex_req [ex_post] ex_post
                  eq_refl eq_refl N)).
Defined.

(** ** Further properties of the handlers *)


Section Frame.

Variable x : string.














End Frame.




Lemma catch_find {A} x (K : option post -> M A) h w :
  valid_oid x = true ->
  catch (bind (find_post x) K) h w = catch (K (find_by_id (store w) x)) h w.
Proof. intros Hv. unfold catch, bind, find_post. now rewrite Hv. Qed.

Lemma catch_bind_ret {A B} (a : A) (k : A -> M B) h w :
  catch (bind (ret a) k) h w = catch (k a) h w.
Proof. reflexivity. Qed.

(** An empty or missing [text] on the validated routes is answered with the
    field error (400) before anything is looked up or written, whatever the
    ids of the request. *)
Theorem empty_text_rejected : forall cr dir r q st,
  validated r = true -> text_ok q = false ->
  run cr dir r q st
  = (Ok tt, mkWorld st true [EvSend (mkResp 400 (BErrors ["Text is required"]))]).
Proof.
  intros cr dir r q st Hr Ht.
  destruct r; try discriminate;
    unfold run, handle, create_post, update_post, add_comment, update_comment;
    rewrite Ht; reflexivity.
Qed.


(** Create-post by a caller found in the user directory saves a post with the
    text, the caller's name, avatar and id, no likes and no comments, answers
    it, and a later get-post of its id answers the same post. *)
Theorem create_then_get : forall cr dir q st u,
  text_ok q = true -> find_user dir (req_user q) = Some u ->
  let p := mkPost (req_fresh q) (req_text q) (user_name u) (user_avatar u)
             (req_user q) [] [] (req_now q) in
  run cr dir CreatePost q st
  = (Ok tt, mkWorld (store_put p st) true [EvSave p; EvSend (mkResp 200 (BPost p))])
  /\ (valid_oid (req_fresh q) = true ->
      forall cr' dir' q', req_post_id q' = req_fresh q ->
      run cr' dir' GetPost q' (store_put p st)
      = (Ok tt, mkWorld (store_put p st) true [EvSend (mkResp 200 (BPost p))])).
Proof.
  intros cr dir q st u Ht Hu p. split.
  - unfold run, handle, create_post. rewrite (text_checked q _ _ Ht).
    unfold catch, bind, deref. rewrite Hu. reflexivity.
  - intros Hv cr' dir' q' Hq. unfold run, handle, get_post.
    rewrite Hq. rewrite catch_find by exact Hv. simpl store.
    rewrite find_store_put. simpl. rewrite String.eqb_refl. reflexivity.
Qed.

(** When the caller is missing from the user directory, create-post, and
    add-comment on an existing post, fail on reading [user.name]: the
    [catch] answers "Server Error" (500) and nothing is written. *)
Theorem missing_user_server_error : forall cr dir q st,
  text_ok q = true -> find_user dir (req_user q) = None ->
  run cr dir CreatePost q st
  = (Ok tt, mkWorld st true [EvSend (mkResp 500 (BText "Server Error"))])
  /\ (forall p, valid_oid (req_post_id q) = true ->
      find_by_id st (req_post_id q) = Some p ->
      run cr dir AddComment q st
      = (Ok tt, mkWorld st true [EvSend (mkResp 500 (BText "Server Error"))])).
Proof.
  intros cr dir q st Ht Hu. split.
  - unfold run, handle, create_post. rewrite (text_checked q _ _ Ht).
    unfold catch, bind, deref. rewrite Hu. reflexivity.
  - intros p Hv Hf. unfold run, handle, add_comment.
    rewrite (text_checked q _ _ Ht), catch_bind_ret.
    rewrite catch_find by exact Hv. simpl store. rewrite Hf, Hu. reflexivity.
Qed.

Lemma mapM_update_cb_app q pre l w ys w' :
  ~ In (req_comment_id q) (map comment_id pre) ->
  mapM (update_cb q) l w = (Ok ys, w') ->
  mapM (update_cb q) (pre ++ l) w = (Ok (map CDoc pre ++ ys), w').
Proof.
  revert w. induction pre as [|c pre IH]; intros w H E; [exact E|].
  simpl in H. simpl. unfold bind at 1, update_cb at 1.
  destruct (String.eqb_spec (comment_id c) (req_comment_id q)) as [Ec|Ec];
    [exfalso; auto|].
  simpl. unfold bind. rewrite (IH w) by auto. reflexivity.
Qed.

Lemma filterM_delete_cb_app q pre l w ys w' :
  ~ In (req_comment_id q) (map comment_id pre) ->
  filterM (delete_cb q) l w = (Ok ys, w') ->
  filterM (delete_cb q) (pre ++ l) w = (Ok (pre ++ ys), w').
Proof.
  revert w. induction pre as [|c pre IH]; intros w H E; [exact E|].
  simpl in H. simpl. unfold bind at 1, delete_cb at 1.
  destruct (String.eqb_spec (comment_id c) (req_comment_id q)) as [Ec|Ec];
    [exfalso; auto|].
  simpl. unfold bind. rewrite (IH w) by auto. reflexivity.
Qed.

(** Update-comment by the author of the comment it names (ids being unique
    in the post) saves the post with only that comment's text replaced, the
    other comments unchanged and in order, and answers that list. *)
Theorem update_own_comment : forall cr dir q st p pre c post,
  text_ok q = true ->
  valid_oid (req_post_id q) = true -> find_by_id st (req_post_id q) = Some p ->
  comments p = pre ++ c :: post ->
  comment_id c = req_comment_id q -> c_user c = req_user q ->
  ~ In (req_comment_id q) (map comment_id (pre ++ post)) ->
  let cs := pre ++ set_c_text c (req_text q) :: post in
  run cr dir UpdateComment q st
  = (Ok tt, mkWorld (store_put (set_comments p cs) st) true
              [EvSave (set_comments p cs); EvSend (mkResp 200 (BComments cs))]).
Proof.
  intros cr dir q st p pre c post Ht Hv Hf Hc Hid Hu Hn cs.
  rewrite map_app in Hn.
  assert (Hpre : ~ In (req_comment_id q) (map comment_id pre))
    by (intros H; apply Hn, in_or_app; auto).
  assert (Hpost : ~ In (req_comment_id q) (map comment_id post))
    by (intros H; apply Hn, in_or_app; auto).
  unfold run, handle, update_comment. rewrite (text_checked q _ _ Ht).
  rewrite catch_find by exact Hv. simpl store. rewrite Hf. cbv beta.
  rewrite Hc.
  assert (E : mapM (update_cb q) (pre ++ c :: post) (mkWorld st false [])
              = (Ok (map CDoc cs), mkWorld st false [])).
  { unfold cs. rewrite map_app. apply mapM_update_cb_app; [exact Hpre|].
    simpl mapM. unfold bind at 1, update_cb at 1.
    rewrite Hid, String.eqb_refl, Hu, String.eqb_refl. simpl. unfold bind.
    rewrite mapM_update_cb_nomatch by exact Hpost.
    reflexivity. }
  rewrite (catch_bind_step _ _ _ _ _ _ E).
  unfold save_items. rewrite cast_items_docs. reflexivity.
Qed.

(** Delete-comment by the author of the comment it names (ids being unique
    in the post) saves the post without exactly that comment, the others in
    their order, and answers that list. *)
Theorem delete_own_comment : forall cr dir q st p pre c post,
  valid_oid (req_post_id q) = true -> find_by_id st (req_post_id q) = Some p ->
  comments p = pre ++ c :: post ->
  comment_id c = req_comment_id q -> c_user c = req_user q ->
  ~ In (req_comment_id q) (map comment_id (pre ++ post)) ->
  run cr dir DeleteComment q st
  = (Ok tt, mkWorld (store_put (set_comments p (pre ++ post)) st) true
              [EvSave (set_comments p (pre ++ post));
               EvSend (mkResp 200 (BComments (pre ++ post)))]).
Proof.
  intros cr dir q st p pre c post Hv Hf Hc Hid Hu Hn.
  rewrite map_app in Hn.
  assert (Hpre : ~ In (req_comment_id q) (map comment_id pre))
    by (intros H; apply Hn, in_or_app; auto).
  assert (Hpost : ~ In (req_comment_id q) (map comment_id post))
    by (intros H; apply Hn, in_or_app; auto).
  unfold run, handle, delete_comment.
  rewrite catch_find by exact Hv. simpl store. rewrite Hf. cbv beta.
  rewrite Hc.
  assert (E : filterM (delete_cb q) (pre ++ c :: post) (mkWorld st false [])
              = (Ok (pre ++ post), mkWorld st false [])).
  { apply filterM_delete_cb_app; [exact Hpre|].
    simpl filterM. unfold bind at 1, delete_cb at 1.
    rewrite Hid, String.eqb_refl, Hu, String.eqb_refl. simpl. unfold bind.
    rewrite filterM_delete_cb_nomatch by exact Hpost.
    reflexivity. }
  rewrite (catch_bind_step _ _ _ _ _ _ E).
  unfold save_items. rewrite cast_items_docs. reflexivity.
Qed.


Lemma empty_text_rejected_witness :
  validated UpdateComment = true /\ text_ok ex_req_u4 = false
  /\ run None ex_dir UpdateComment ex_req_u4 [ex_post]
     = (Ok tt, mkWorld [ex_post] true
                 [EvSend (mkResp 400 (BErrors ["Text is required"]))]).
Proof.
  split; [reflexivity|]. split; [reflexivity|].
  exact (empty_text_rejected None ex_dir UpdateComment ex_req_u4 [ex_post]
           eq_refl eq_refl).
Defined.


Lemma create_then_get_witness :
  text_ok ex_create = true
  /\ find_user ex_dir (req_user ex_create) = Some (mkUser "u1" "Ann" "ann.png")
  /\ valid_oid (req_fresh ex_create) = true
  /\ req_post_id ex_req = req_fresh ex_create
  /\ run None ex_dir CreatePost ex_create [ex_other]
     = (Ok tt, mkWorld [ex_other; mkPost "5f1d7f0c2b3a4e0000000001" "hello" "Ann"
                                   "ann.png" "u1" [] [] 5] true
                 [EvSave (mkPost "5f1d7f0c2b3a4e0000000001" "hello" "Ann" "ann.png"
                            "u1" [] [] 5);
                  EvSend (mkResp 200 (BPost (mkPost "5f1d7f0c2b3a4e0000000001" "hello"
                                               "Ann" "ann.png" "u1" [] [] 5)))])
  /\ run None [] GetPost ex_req
       [ex_other; mkPost "5f1d7f0c2b3a4e0000000001" "hello" "Ann" "ann.png" "u1" [] [] 5]
     = (Ok tt, mkWorld [ex_other; mkPost "5f1d7f0c2b3a4e0000000001" "hello" "Ann"
                                   "ann.png" "u1" [] [] 5] true
                 [EvSend (mkResp 200 (BPost (mkPost "5f1d7f0c2b3a4e0000000001" "hello"
                                               "Ann" "ann.png" "u1" [] [] 5)))]).
Proof.
  split; [reflexivity|]. split; [reflexivity|]. split; [reflexivity|].
  split; [reflexivity|].
  exact (conj (proj1 (create_then_get None ex_dir ex_create [ex_other]
                        (mkUser "u1" "Ann" "ann.png") eq_refl eq_refl))
              (proj2 (create_then_get None ex_dir ex_create [ex_other]
                        (mkUser "u1" "Ann" "ann.png") eq_refl eq_refl)
                 eq_refl None [] ex_req eq_refl)).
Defined.

Lemma missing_user_server_error_witness :
  text_ok ex_req_u3 = true /\ find_user ex_dir (req_user ex_req_u3) = None
  /\ valid_oid (req_post_id ex_req_u3) = true
  /\ find_by_id [ex_post] (req_post_id ex_req_u3) = Some ex_post
  /\ run None ex_dir AddComment ex_req_u3 [ex_post]
     = (Ok tt, mkWorld [ex_post] true [EvSend (mkResp 500 (BText "Server Error"))]).
Proof.
  split; [reflexivity|]. split; [reflexivity|]. split; [reflexivity|].
  split; [reflexivity|].
  exact (proj2 (missing_user_server_error None ex_dir ex_req_u3 [ex_post]
                  eq_refl eq_refl) ex_post eq_refl eq_refl).
Defined.

Lemma update_own_comment_witness :
  text_ok ex_req_u2 = true /\ valid_oid (req_post_id ex_req_u2) = true
  /\ find_by_id [ex_thread] (req_post_id ex_req_u2) = Some ex_thread
  /\ comments ex_thread = [ex_comment_a] ++ bug_comment :: [ex_comment_b]
  /\ comment_id bug_comment = req_comment_id ex_req_u2
  /\ c_user bug_comment = req_user ex_req_u2
  /\ ~ In (req_comment_id ex_req_u2) (map comment_id ([ex_comment_a] ++ [ex_comment_b]))
  /\ run None ex_dir UpdateComment ex_req_u2 [ex_thread]
     = (Ok tt, mkWorld [set_comments ex_thread
                          [ex_comment_a; set_c_text bug_comment "edited"; ex_comment_b]]
                 true
                 [EvSave (set_comments ex_thread
                            [ex_comment_a; set_c_text bug_comment "edited"; ex_comment_b]);
                  EvSend (mkResp 200 (BComments
                            [ex_comment_a; set_c_text bug_comment "edited"; ex_comment_b]))]).
Proof.
  assert (N : ~ In (req_comment_id ex_req_u2)
                (map comment_id ([ex_comment_a] ++ [ex_comment_b]))).
  { simpl. intuition discriminate. }
  split; [reflexivity|]. split; [reflexivity|]. split; [reflexivity|].
  split; [reflexivity|]. split; [reflexivity|]. split; [reflexivity|].
  split; [exact N|].
  exact (update_own_comment None ex_dir ex_req_u2 [ex_thread] ex_thread
           [ex_comment_a] bug_comment [ex_comment_b]
           eq_refl eq_refl eq_refl eq_refl eq_refl eq_refl N).
Defined.

Lemma delete_own_comment_witness :
  valid_oid (req_post_id ex_req_u2) = true
  /\ find_by_id [ex_thread] (req_post_id ex_req_u2) = Some ex_thread
  /\ comments ex_thread = [ex_comment_a] ++ bug_comment :: [ex_comment_b]
  /\ comment_id bug_comment = req_comment_id ex_req_u2
  /\ c_user bug_comment = req_user ex_req_u2
  /\ ~ In (req_comment_id ex_req_u2) (map comment_id ([ex_comment_a] ++ [ex_comment_b]))
  /\ run None ex_dir DeleteComment ex_req_u2 [ex_thread]
     = (Ok tt, mkWorld [set_comments ex_thread [ex_comment_a; ex_comment_b]] true
                 [EvSave (set_comments ex_thread [ex_comment_a; ex_comment_b]);
                  EvSend (mkResp 200 (BComments [ex_comment_a; ex_comment_b]))]).
Proof.
  assert (N : ~ In (req_comment_id ex_req_u2)
                (map comment_id ([ex_comment_a] ++ [ex_comment_b]))).
  { simpl. intuition discriminate. }
  split; [reflexivity|]. split; [reflexivity|]. split; [reflexivity|].
  split; [reflexivity|]. split; [reflexivity|]. split; [exact N|].
  exact (delete_own_comment None ex_dir ex_req_u2 [ex_thread] ex_thread
           [ex_comment_a] bug_comment [ex_comment_b]
           eq_refl eq_refl eq_refl eq_refl eq_refl N).
Defined.

(** ** One response per request *)













Lemma total_once {A} (m : M A) : total m -> once m.
Proof.
  intros Hm w Hw. destruct (Hm w Hw) as [a [H1 [H2 H3]]].
  destruct (m w) as [[b|e] w']; simpl in *; [auto|discriminate].
Qed.












(** ** Stored ids stay unique *)

Section Keeps.

Variable P : list post -> Prop.
Hypothesis P_put : forall p st, P st -> P (store_put p st).
Hypothesis P_remove : forall x st, P st -> P (store_remove x st).
















End Keeps.






(** The two read routes, get-all and get-post, never write: the collection
    is left as it was and the trace holds the response alone. *)
Theorem reads_never_write : forall cr dir r q st,
  r = GetPosts \/ r = GetPost ->
  store (snd (run cr dir r q st)) = st
  /\ exists resp, trace (snd (run cr dir r q st)) = [EvSend resp].
Proof.
  intros cr dir r q st [-> | ->]; unfold run, handle, get_posts, get_post.
  - simpl. eauto.
  - unfold catch, bind, find_post. destruct (valid_oid (req_post_id q)).
    + simpl. destruct (find_by_id st (req_post_id q)); simpl; eauto.
    + unfold on_lookup_error. simpl. eauto.
Qed.

Lemma reads_never_write_witness :
  (GetPost = GetPosts \/ GetPost = GetPost)
  /\ store (snd (run None ex_dir GetPost ex_req_bad [ex_post])) = [ex_post]
  /\ trace (snd (run None ex_dir GetPost ex_req_bad [ex_post]))
     = [EvSend (mkResp 404 (BMsg "Post not found"))].
Proof.
  split; [right; reflexivity|].
  split; [exact (proj1 (reads_never_write None ex_dir GetPost ex_req_bad [ex_post]
                          (or_intror eq_refl)))|].
  reflexivity.
Defined.
